(** * Handle / tensor conversion at the AOTInductor ABI boundary

    A shallow embedding of
    [torch/csrc/inductor/aoti_torch/tensor_converter.cpp] and the proofs of
    its ownership-transfer contract.

    The C++ functions work on raw memory: a caller-owned array of
    [at::Tensor], a caller-owned array of [AtenTensorHandle] and boxed
    tensors created by [new].  The embedding threads that memory through a
    state-and-fault monad; undefined behaviour (null or dangling
    dereference, indexing past the end of an array) and [std::bad_alloc]
    are explicit faults.

    Modelling conventions:
    - a [size_t] length or index is a [nat]: the loops only count from [0]
      up to [length], so no wrap-around can occur;
    - a [std::vector] local is a list; the storage of the vector itself
      ([result(length)], [reserve]) is not part of the modelled heap;
    - the two caller arrays are kept apart from the heap of boxed tensors,
      and the pointer arguments [tensors] and [handles] denote their first
      slot;
    - the heap maps the address of every boxed tensor that has been
      allocated and not freed to its current payload, so two handles with
      the same address bits alias the same box. *)

From Stdlib Require Import ZArith Lia.
From stdpp Require Import gmap list.

Local Open Scope Z_scope.

(** ** Pointers and handles

    Both [at::Tensor*] and [AtenTensorHandle] (a pointer to the opaque
    struct [AtenTensorOpaque]) are pointer-sized; the embedding keeps the
    address as an integer and wraps it in two distinct record types so that
    the two C++ types stay apart.  Address [0] is [nullptr]. *)

Record TensorPtr : Type := MkPtr { ptr_bits : Z }.

Record AtenTensorHandle : Type := MkHandle { handle_bits : Z }.

Definition null_handle : AtenTensorHandle := MkHandle 0.

#[global] Instance TensorPtr_eq_dec : EqDecision TensorPtr.
Proof. solve_decision. Defined.

#[global] Instance AtenTensorHandle_eq_dec : EqDecision AtenTensorHandle.
Proof. solve_decision. Defined.

(** [reinterpret_cast] between the two pointer types keeps the address. *)
Definition reinterpret_as_pointer (h : AtenTensorHandle) : TensorPtr :=
  MkPtr (handle_bits h).

Definition reinterpret_as_handle (p : TensorPtr) : AtenTensorHandle :=
  MkHandle (ptr_bits p).

(** ** Memory events

    Ghost log of the memory operations a call performs, in program order. *)

Inductive event : Type :=
| EvNew (p : TensorPtr)                       (* [operator new] returned [p] *)
| EvMoveFromSlot (i : nat)                    (* move constructor read [tensors[i]] *)
| EvLoadHandle (i : nat) (h : AtenTensorHandle)   (* read of [handles[i]] *)
| EvMoveFromBox (p : TensorPtr)               (* move constructor read [*p] *)
| EvStoreHandle (i : nat) (h : AtenTensorHandle). (* [handles[i] = h] *)

#[global] Instance event_eq_dec : EqDecision event.
Proof. solve_decision. Defined.

Inductive fault : Type :=
| NullDeref       (* [*p] with [p == nullptr] *)
| DanglingDeref   (* [*p] where no boxed tensor lives at [p] *)
| OutOfBounds     (* array slot past the end of the caller's array *)
| BadAlloc.       (* [operator new] threw [std::bad_alloc] *)

#[global] Instance fault_eq_dec : EqDecision fault.
Proof. solve_decision. Defined.

Section Converter.

(** [at::Tensor] is external to this file.  All that the converter uses is
    its move constructor, which hands the payload to the new object and
    leaves the source in the moved-from state (the undefined tensor). *)
Context {Tensor : Type}.
Variable undefined_tensor : Tensor.

(** ** Machine state *)

Record state : Type := MkState {
  tensors_mem : list Tensor;            (* the array [tensors] points to *)
  handles_mem : list AtenTensorHandle;  (* the array [handles] points to *)
  heap : gmap Z Tensor;                 (* boxed tensors, by address *)
  trace : list event
}.

Definition log (evs : list event) (s : state) : state :=
  MkState (tensors_mem s) (handles_mem s) (heap s) (trace s ++ evs).

Definition set_heap (h : gmap Z Tensor) (s : state) : state :=
  MkState (tensors_mem s) (handles_mem s) h (trace s).

Definition set_tensors (ts : list Tensor) (s : state) : state :=
  MkState ts (handles_mem s) (heap s) (trace s).

Definition set_handles (hs : list AtenTensorHandle) (s : state) : state :=
  MkState (tensors_mem s) hs (heap s) (trace s).

(** ** The state-and-fault monad *)

Inductive outcome (A : Type) : Type :=
| Ok (a : A) (s : state)
| Fail (f : fault) (s : state).

Arguments Ok {A} a s.
Arguments Fail {A} f s.

Definition M (A : Type) : Type := state -> outcome A.

Definition ret {A} (a : A) : M A := fun s => Ok a s.

Definition bind {A B} (c : M A) (k : A -> M B) : M B :=
  fun s => match c s with
           | Ok a s' => k a s'
           | Fail f s' => Fail f s'
           end.

Notation "'let!' x := c 'in' k" := (bind c (fun x => k))
  (at level 10, x name, c at level 100, k at level 200).

(** ** The allocator

    [operator new] either returns the address of storage that is not
    null and does not overlap any live boxed tensor, or throws.  Which
    address, and when it throws, is left to the allocator. *)

Class Allocator : Type := {
  operator_new : gmap Z Tensor -> option Z;
  operator_new_nonnull : forall h a, operator_new h = Some a -> a <> 0;
  operator_new_fresh : forall h a, operator_new h = Some a -> h !! a = None
}.

Context {allocator : Allocator}.

(** ** Memory primitives *)

(** [new at::Tensor(std::move(tensors[i]))]: storage is obtained first, then
    the move constructor takes the payload of slot [i]. *)
Definition new_Tensor_move_slot (i : nat) : M TensorPtr :=
  fun s =>
    match operator_new (heap s) with
    | None => Fail BadAlloc s
    | Some a =>
        match tensors_mem s !! i with
        | None => Fail OutOfBounds s
        | Some v =>
            Ok (MkPtr a)
               (log [EvNew (MkPtr a); EvMoveFromSlot i]
                  (set_heap (<[a := v]> (heap s))
                     (set_tensors (<[i := undefined_tensor]> (tensors_mem s)) s)))
        end
    end.

(** Read of [handles[i]]. *)
Definition load_handle (i : nat) : M AtenTensorHandle :=
  fun s =>
    match handles_mem s !! i with
    | None => Fail OutOfBounds s
    | Some h => Ok h (log [EvLoadHandle i h] s)
    end.

(** [at::Tensor(std::move( *p ))]: the payload leaves the box, the box stays
    allocated and holds the moved-from tensor. *)
Definition move_from_box (p : TensorPtr) : M Tensor :=
  fun s =>
    if decide (ptr_bits p = 0) then Fail NullDeref s
    else match heap s !! ptr_bits p with
         | None => Fail DanglingDeref s
         | Some v =>
             Ok v (log [EvMoveFromBox p]
                     (set_heap (<[ptr_bits p := undefined_tensor]> (heap s)) s))
         end.

(** [handles[i] = h]. *)
Definition store_handle (i : nat) (h : AtenTensorHandle) : M unit :=
  fun s =>
    if decide (i < length (handles_mem s))%nat
    then Ok tt (log [EvStoreHandle i h] (set_handles (<[i := h]> (handles_mem s)) s))
    else Fail OutOfBounds s.

(** ** The four functions of [tensor_converter.cpp] *)

Definition tensor_handle_to_tensor_pointer (handle : AtenTensorHandle) : M TensorPtr :=
  ret (reinterpret_as_pointer handle).

Definition tensor_pointer_to_tensor_handle (tensor : TensorPtr) : M AtenTensorHandle :=
  ret (reinterpret_as_handle tensor).

(** The loop of [unsafe_alloc_new_handles_from_tensors]; [n] counts the
    iterations still to run, [i] is the loop variable. *)
Fixpoint alloc_loop (n i : nat) (result : list AtenTensorHandle)
  : M (list AtenTensorHandle) :=
  match n with
  | O => ret result
  | S n' =>
      let! allocated := new_Tensor_move_slot i in
      let! h := tensor_pointer_to_tensor_handle allocated in
      alloc_loop n' (S i) (<[i := h]> result)
  end.

(** [std::vector<AtenTensorHandle> result(length)] value-initialises
    [length] null handles. *)
Definition unsafe_alloc_new_handles_from_tensors (length : nat)
  : M (list AtenTensorHandle) :=
  alloc_loop length 0 (replicate length null_handle).

(** The loop of [alloc_tensors_by_stealing_from_handles]. *)
Fixpoint steal_loop (n i : nat) (result : list Tensor) : M (list Tensor) :=
  match n with
  | O => ret result
  | S n' =>
      let! h := load_handle i in
      let! p := tensor_handle_to_tensor_pointer h in
      let! v := move_from_box p in
      let! _ := store_handle i null_handle in
      steal_loop n' (S i) (result ++ [v])
  end.

Definition alloc_tensors_by_stealing_from_handles (length : nat)
  : M (list Tensor) :=
  steal_loop length 0 [].

End Converter.

Arguments Ok {Tensor A} a s.
Arguments Fail {Tensor A} f s.
Arguments state Tensor : clear implicits.
Arguments outcome Tensor A : clear implicits.
Arguments Allocator Tensor : clear implicits.

(** ** Closed forms of the two loops

    Proof-side helpers: what a run of the stealing loop over the handles
    [hs] leaves in the heap ([drain]), returns ([stolen]) and logs
    ([steal_events]), and what a run of the allocation loop logs when
    [operator new] returned [addrs] ([alloc_events]). *)

Section ClosedForms.

Context {Tensor : Type}.
Variable undefined_tensor : Tensor.

(** A handle the loop may dereference: not null, and a box lives there. *)
Definition live (m : gmap Z Tensor) (h : AtenTensorHandle) : Prop :=
  handle_bits h <> 0 /\ is_Some (m !! handle_bits h).

Fixpoint drain (m : gmap Z Tensor) (hs : list AtenTensorHandle) : gmap Z Tensor :=
  match hs with
  | [] => m
  | h :: hs' => drain (<[handle_bits h := undefined_tensor]> m) hs'
  end.

Fixpoint stolen (m : gmap Z Tensor) (hs : list AtenTensorHandle) : list Tensor :=
  match hs with
  | [] => []
  | h :: hs' =>
      default undefined_tensor (m !! handle_bits h)
        :: stolen (<[handle_bits h := undefined_tensor]> m) hs'
  end.

Fixpoint steal_events (i : nat) (hs : list AtenTensorHandle) : list event :=
  match hs with
  | [] => []
  | h :: hs' =>
      EvLoadHandle i h
        :: EvMoveFromBox (reinterpret_as_pointer h)
        :: EvStoreHandle i null_handle
        :: steal_events (S i) hs'
  end.

Fixpoint alloc_events (i : nat) (addrs : list Z) : list event :=
  match addrs with
  | [] => []
  | a :: addrs' =>
      EvNew (MkPtr a) :: EvMoveFromSlot i :: alloc_events (S i) addrs'
  end.

(** The state after one successful iteration of the allocation loop on
    slot [i], when [operator new] returned [a] and the slot held [v]. *)
Definition after_new (i : nat) (a : Z) (v : Tensor) (s : state Tensor)
  : state Tensor :=
  MkState (<[i := undefined_tensor]> (tensors_mem s))
          (handles_mem s)
          (<[a := v]> (heap s))
          (trace s ++ [EvNew (MkPtr a); EvMoveFromSlot i]).

End ClosedForms.

(** ** A concrete machine: definitions

    Tensors are stood for by integers, the undefined tensor by [-1]. *)

Definition next_free {V} (h : gmap Z V) : Z :=
  1 + map_fold (fun k _ acc => Z.max k acc) 0 h.

Definition bump_new (capacity : nat) (h : gmap Z Z) : option Z :=
  if decide (size h < capacity)%nat then Some (next_free h) else None.

(** Three tensors in the caller's array, one older box at address 7. *)
Definition demo_start : state Z :=
  MkState [10; 20; 30] [] {[ 7 := 70 ]} [].

Definition demo_handles : list AtenTensorHandle :=
  [MkHandle 8; MkHandle 9; MkHandle 10].

(** The state after allocating handles for the three tensors. *)
Definition demo_boxed : state Z :=
  MkState [-1; -1; -1] []
          (<[10 := 30]> (<[9 := 20]> (<[8 := 10]> {[ 7 := 70 ]})))
          (alloc_events 0 [8; 9; 10]).

(** The caller's handle array: the three new handles and the older one. *)
Definition demo_ready : state Z :=
  set_handles (demo_handles ++ [MkHandle 7]) demo_boxed.

(** The state after the three handles have been reclaimed. *)
Definition demo_done : state Z :=
  MkState [-1; -1; -1]
          (replicate 3 null_handle ++ [MkHandle 7])
          (<[10 := -1]> (<[9 := -1]> (<[8 := -1]> {[ 7 := 70 ]})))
          (alloc_events 0 [8; 9; 10] ++ steal_events 0 demo_handles).

(** The state in which a third allocation finds the allocator exhausted. *)
Definition demo_partial : state Z :=
  MkState [-1; -1; 30] []
          (<[9 := 20]> (<[8 := 10]> {[ 7 := 70 ]}))
          (alloc_events 0 [8; 9]).

(** * Proofs *)

Section Proofs.

Context {Tensor : Type}.
Variable undefined_tensor : Tensor.
Context {allocator : Allocator Tensor}.


(** *** Reclamation loop *)

Lemma live_insert (m : gmap Z Tensor) a v h :
  is_Some (m !! a) -> live (<[a := v]> m) h <-> live m h.
Proof.
  intros Ha. unfold live. rewrite lookup_insert_is_Some.
  split; intros [Hnz Hl]; split; auto.
  - destruct Hl as [<- | [_ Hl]]; auto.
  - destruct (decide (a = handle_bits h)); auto.
Qed.

(** One iteration, run forwards on a live handle. *)
Lemma steal_loop_step n i result (s : state Tensor) h v :
  handles_mem s !! i = Some h ->
  handle_bits h <> 0 ->
  heap s !! handle_bits h = Some v ->
  steal_loop undefined_tensor (S n) i result s =
    steal_loop undefined_tensor n (S i) (result ++ [v])
      (MkState (tensors_mem s)
               (<[i := null_handle]> (handles_mem s))
               (<[handle_bits h := undefined_tensor]> (heap s))
               (trace s ++ [EvLoadHandle i h;
                            EvMoveFromBox (reinterpret_as_pointer h);
                            EvStoreHandle i null_handle])).
Proof.
  intros Hh Hnz Hv. cbn [steal_loop].
  unfold bind, load_handle, tensor_handle_to_tensor_pointer, ret,
    move_from_box, store_handle, log, set_heap, set_handles.
  rewrite Hh. cbn.
  destruct (decide (handle_bits h = 0)) as [? | _]; [done |].
  rewrite Hv. cbn.
  destruct (decide (i < length (handles_mem s))%nat) as [_ | Hge].
  - by rewrite <- !app_assoc.
  - apply lookup_lt_Some in Hh. lia.
Qed.

(** One iteration, read backwards from a successful run. *)
Lemma steal_loop_step_inv n i result (s : state Tensor) R s' :
  steal_loop undefined_tensor (S n) i result s = Ok R s' ->
  exists h v,
    handles_mem s !! i = Some h /\
    handle_bits h <> 0 /\
    heap s !! handle_bits h = Some v.
Proof.
  cbn [steal_loop].
  unfold bind, load_handle, tensor_handle_to_tensor_pointer, ret,
    move_from_box, log, set_heap.
  destruct (handles_mem s !! i) as [h |] eqn:Hh; [| discriminate]. cbn.
  destruct (decide (handle_bits h = 0)) as [? | Hnz]; [discriminate |].
  destruct (heap s !! handle_bits h) as [v |] eqn:Hv; [| discriminate].
  eauto.
Qed.

Lemma steal_loop_spec (hs : list AtenTensorHandle) :
  forall pre post result (s : state Tensor),
    handles_mem s = pre ++ hs ++ post ->
    Forall (live (heap s)) hs ->
    steal_loop undefined_tensor (length hs) (length pre) result s =
      Ok (result ++ stolen undefined_tensor (heap s) hs)
         (MkState (tensors_mem s)
                  (pre ++ replicate (length hs) null_handle ++ post)
                  (drain undefined_tensor (heap s) hs)
                  (trace s ++ steal_events (length pre) hs)).
Proof.
  induction hs as [| h hs IH]; intros pre post result s Hmem Hlive.
  - simpl. unfold ret. rewrite !app_nil_r. destruct s; simpl in *. by subst.
  - apply Forall_cons in Hlive as [[Hnz [v Hv]] Hlive].
    simpl in Hmem.
    cbn [length].
    rewrite (steal_loop_step _ _ _ _ h v); [| by rewrite Hmem, list_lookup_middle | done..].
    replace (S (length pre)) with (length (pre ++ [null_handle]))
      by (rewrite length_app; simpl; lia).
    rewrite (IH (pre ++ [null_handle]) post).
    + cbn [tensors_mem handles_mem heap trace stolen drain
           steal_events replicate].
      rewrite Hv. cbn [default from_option id]. f_equal.
      * by rewrite <- app_assoc.
      * f_equal.
        -- rewrite <- !app_assoc. done.
        -- rewrite <- !app_assoc. rewrite length_app. simpl.
           replace (length pre + 1)%nat with (S (length pre)) by lia. done.
    + cbn [handles_mem]. rewrite Hmem.
      rewrite <- app_assoc. simpl.
      rewrite insert_app_r_alt by lia. by rewrite Nat.sub_diag.
    + cbn [heap].
      eapply Forall_impl; [exact Hlive |].
      intros h'. apply live_insert. eauto.
Qed.

Lemma steal_loop_Ok_inv n :
  forall i result (s : state Tensor) R s',
    steal_loop undefined_tensor n i result s = Ok R s' ->
    (i <= length (handles_mem s))%nat ->
    (i + n <= length (handles_mem s))%nat /\
    Forall (live (heap s)) (take n (drop i (handles_mem s))).
Proof.
  induction n as [| n IH]; intros i result s R s' Hrun Hi.
  - split; [lia | constructor].
  - destruct (steal_loop_step_inv _ _ _ _ _ _ Hrun) as (h & v & Hh & Hnz & Hv).
    rewrite (steal_loop_step _ _ _ _ h v) in Hrun by done.
    apply lookup_lt_Some in Hh as Hlt.
    apply IH in Hrun as [Hlen Hlive]; cbn [handles_mem heap] in *;
      rewrite ?length_insert in *; [| lia].
    split; [lia |].
    rewrite (drop_S _ h) by done. cbn [take].
    rewrite drop_insert_lt in Hlive by lia.
    constructor.
    + split; eauto.
    + eapply Forall_impl; [exact Hlive |].
      intros h'. apply live_insert. eauto.
Qed.

(** Every successful call of the reclamation function, in closed form. *)
Lemma steal_Ok_closed_form N (s : state Tensor) R s' :
  alloc_tensors_by_stealing_from_handles undefined_tensor N s = Ok R s' ->
  (N <= length (handles_mem s))%nat /\
  Forall (live (heap s)) (take N (handles_mem s)) /\
  R = stolen undefined_tensor (heap s) (take N (handles_mem s)) /\
  s' = MkState (tensors_mem s)
               (replicate N null_handle ++ drop N (handles_mem s))
               (drain undefined_tensor (heap s) (take N (handles_mem s)))
               (trace s ++ steal_events 0 (take N (handles_mem s))).
Proof.
  unfold alloc_tensors_by_stealing_from_handles. intros Hrun.
  destruct (steal_loop_Ok_inv _ _ _ _ _ _ Hrun) as [Hlen Hlive]; [lia |].
  cbn [drop] in Hlive. simpl in Hlen.
  split; [done |]. split; [done |].
  pose proof (steal_loop_spec (take N (handles_mem s)) [] (drop N (handles_mem s))
                [] s) as Hspec.
  rewrite length_take_le in Hspec by lia. cbn [length app] in Hspec.
  rewrite Hspec in Hrun; [| by rewrite take_drop | done].
  by injection Hrun as <- <-.
Qed.

(** *** What the loop leaves in the heap and returns *)

Lemma drain_lookup (hs : list AtenTensorHandle) :
  forall (m : gmap Z Tensor) a,
    drain undefined_tensor m hs !! a =
      if decide (a ∈ handle_bits <$> hs) then Some undefined_tensor else m !! a.
Proof.
  induction hs as [| h hs IH]; intros m a; cbn [drain fmap list_fmap].
  - case_decide as Hin; [| done]. by apply elem_of_nil in Hin.
  - rewrite IH.
    destruct (decide (a ∈ handle_bits <$> hs)) as [Hin | Hnin];
      destruct (decide (a ∈ handle_bits h :: (handle_bits <$> hs))) as [Hin' | Hnin'].
    + done.
    + exfalso. apply Hnin'. by right.
    + apply elem_of_cons in Hin' as [-> | ?]; [| done]. by rewrite lookup_insert_eq.
    + apply not_elem_of_cons in Hnin' as [Hne _]. by rewrite lookup_insert_ne.
Qed.

Lemma drain_dom (hs : list AtenTensorHandle) :
  forall (m : gmap Z Tensor),
    Forall (live m) hs -> dom (drain undefined_tensor m hs) = dom m.
Proof.
  induction hs as [| h hs IH]; intros m Hlive; [done |].
  apply Forall_cons in Hlive as [[_ Hh] Hlive]. cbn [drain].
  rewrite IH.
  - rewrite dom_insert_L. apply elem_of_dom in Hh.
    apply leibniz_equiv. apply subseteq_union_1.
    by apply singleton_subseteq_l.
  - eapply Forall_impl; [exact Hlive |]. intros h'. by apply live_insert.
Qed.

Lemma stolen_length (hs : list AtenTensorHandle) :
  forall (m : gmap Z Tensor), length (stolen undefined_tensor m hs) = length hs.
Proof. induction hs as [| h hs IH]; intros m; simpl; [done | by rewrite IH]. Qed.

Lemma stolen_lookup (hs : list AtenTensorHandle) :
  forall (m : gmap Z Tensor) k h,
    hs !! k = Some h ->
    stolen undefined_tensor m hs !! k =
      Some (default undefined_tensor (drain undefined_tensor m (take k hs) !! handle_bits h)).
Proof.
  induction hs as [| h0 hs IH]; intros m k h Hk; [done |].
  destruct k as [| k]; simpl in *.
  - by injection Hk as ->.
  - by apply IH.
Qed.

(** With pairwise distinct handles every box still holds its payload when
    its turn comes. *)
Lemma stolen_NoDup (hs : list AtenTensorHandle) :
  forall (m : gmap Z Tensor) (vs : list Tensor),
    NoDup (handle_bits <$> hs) ->
    length vs = length hs ->
    (forall k h, hs !! k = Some h -> m !! handle_bits h = vs !! k) ->
    stolen undefined_tensor m hs = vs.
Proof.
  induction hs as [| h hs IH]; intros m vs Hnd Hlen Hvs.
  - by destruct vs.
  - destruct vs as [| v vs]; [discriminate |].
    cbn [fmap list_fmap] in Hnd. apply NoDup_cons in Hnd as [Hnotin Hnd].
    cbn [stolen]. rewrite (Hvs 0%nat h eq_refl). cbn. f_equal.
    apply IH; [done | by injection Hlen |].
    intros k h' Hk. rewrite lookup_insert_ne; [exact (Hvs (S k) h' Hk) |].
    intros Heq. apply Hnotin. rewrite Heq.
    apply list_elem_of_fmap_2. by eapply list_elem_of_lookup_2.
Qed.

(** *** Allocation loop *)

Lemma take_S_insert {A} (l : list A) i x :
  (i < length l)%nat -> take (S i) (<[i := x]> l) = take i l ++ [x].
Proof.
  intros Hi. rewrite (take_S_r _ _ x) by by apply list_lookup_insert_eq.
  by rewrite take_insert_ge.
Qed.

Lemma alloc_loop_step n i result (s : state Tensor) a v :
  operator_new (heap s) = Some a ->
  tensors_mem s !! i = Some v ->
  alloc_loop undefined_tensor (S n) i result s =
    alloc_loop undefined_tensor n (S i) (<[i := MkHandle a]> result)
      (after_new undefined_tensor i a v s).
Proof.
  intros Ha Hv. cbn [alloc_loop].
  unfold bind, new_Tensor_move_slot, tensor_pointer_to_tensor_handle, ret.
  by rewrite Ha, Hv.
Qed.

Lemma alloc_loop_step_inv n i result (s : state Tensor) H s' :
  alloc_loop undefined_tensor (S n) i result s = Ok H s' ->
  exists a v, operator_new (heap s) = Some a /\ tensors_mem s !! i = Some v.
Proof.
  cbn [alloc_loop]. unfold bind, new_Tensor_move_slot.
  destruct (operator_new (heap s)) as [a |]; [| discriminate].
  destruct (tensors_mem s !! i) as [v |]; [| discriminate].
  eauto.
Qed.

Lemma alloc_loop_bad_alloc n i result (s : state Tensor) :
  operator_new (heap s) = None ->
  alloc_loop undefined_tensor (S n) i result s = Fail BadAlloc s.
Proof.
  intros Ha. cbn [alloc_loop]. unfold bind, new_Tensor_move_slot.
  by rewrite Ha.
Qed.

(** Every successful run of the allocation loop: the addresses [addrs] that
    [operator new] returned, in order, and what the run left behind. *)
Lemma alloc_loop_inv n :
  forall i result (s : state Tensor) H s',
    alloc_loop undefined_tensor n i result s = Ok H s' ->
    (i + n <= length result)%nat ->
    (i <= length (tensors_mem s))%nat ->
    exists addrs : list Z,
      length addrs = n /\
      (i + n <= length (tensors_mem s))%nat /\
      H = take i result ++ (MkHandle <$> addrs) ++ drop (i + n) result /\
      tensors_mem s' =
        take i (tensors_mem s) ++ replicate n undefined_tensor
          ++ drop (i + n) (tensors_mem s) /\
      handles_mem s' = handles_mem s /\
      trace s' = trace s ++ alloc_events i addrs /\
      NoDup addrs /\
      Forall (fun a => a <> 0 /\ heap s !! a = None) addrs /\
      (forall k a, addrs !! k = Some a ->
                   heap s' !! a = tensors_mem s !! (i + k)%nat) /\
      (forall a, a ∉ addrs -> heap s' !! a = heap s !! a).
Proof.
  induction n as [| n IH]; intros i result s H s' Hrun Hres Hten.
  - injection Hrun as <- <-. exists [].
    rewrite Nat.add_0_r. cbn [fmap list_fmap replicate app alloc_events].
    rewrite !take_drop, app_nil_r.
    repeat split; try done; try lia. constructor.
  - destruct (alloc_loop_step_inv _ _ _ _ _ _ Hrun) as (a & v & Ha & Hv).
    rewrite (alloc_loop_step _ _ _ _ a v) in Hrun by done.
    apply lookup_lt_Some in Hv as Hlt.
    apply IH in Hrun as (addrs & Hlen & Hbound & HH & Hts & Hhs & Htr & Hnd
                          & Hfresh & Hnew & Hold);
      cbn [after_new tensors_mem handles_mem heap trace] in *;
      rewrite ?length_insert in *; try lia.
    assert (Hnotin : a ∉ addrs).
    { intros Hin. rewrite Forall_forall in Hfresh.
      destruct (Hfresh a Hin) as [_ Hnone]. by rewrite lookup_insert_eq in Hnone. }
    exists (a :: addrs). repeat split.
    + simpl. lia.
    + lia.
    + rewrite HH, take_S_insert, drop_insert_lt by lia.
      rewrite <- app_assoc. cbn [fmap list_fmap app].
      by replace (i + S n)%nat with (S i + n)%nat by lia.
    + rewrite Hts, take_S_insert, drop_insert_lt by lia.
      rewrite <- app_assoc. cbn [replicate app].
      by replace (i + S n)%nat with (S i + n)%nat by lia.
    + done.
    + rewrite Htr, <- app_assoc. done.
    + by apply NoDup_cons.
    + constructor.
      * split; [by eapply operator_new_nonnull | by apply operator_new_fresh].
      * eapply Forall_impl; [exact Hfresh |].
        intros a' [Hnz Hnone]. apply lookup_insert_None in Hnone as [Hnone _]. done.
    + intros [| k] a' Hk; simpl in Hk.
      * injection Hk as <-. rewrite Hold by done.
        by rewrite lookup_insert_eq, Nat.add_0_r.
      * rewrite (Hnew k a' Hk), list_lookup_insert_ne by lia.
        by replace (i + S k)%nat with (S i + k)%nat by lia.
    + intros a' Hnin. apply not_elem_of_cons in Hnin as [Hne Hnin].
      by rewrite Hold, lookup_insert_ne.
Qed.

(** Every successful call of the allocation function. *)
Lemma alloc_Ok_closed_form N (s : state Tensor) H s' :
  unsafe_alloc_new_handles_from_tensors undefined_tensor N s = Ok H s' ->
  exists addrs : list Z,
    length addrs = N /\
    (N <= length (tensors_mem s))%nat /\
    H = MkHandle <$> addrs /\
    tensors_mem s' = replicate N undefined_tensor ++ drop N (tensors_mem s) /\
    handles_mem s' = handles_mem s /\
    trace s' = trace s ++ alloc_events 0 addrs /\
    NoDup addrs /\
    Forall (fun a => a <> 0 /\ heap s !! a = None) addrs /\
    (forall k a, addrs !! k = Some a -> heap s' !! a = tensors_mem s !! k) /\
    (forall a, a ∉ addrs -> heap s' !! a = heap s !! a).
Proof.
  unfold unsafe_alloc_new_handles_from_tensors. intros Hrun.
  apply alloc_loop_inv in Hrun
    as (addrs & Hlen & Hbound & HH & Hts & Hhs & Htr & Hnd & Hfresh & Hnew & Hold);
    rewrite ?length_replicate; try lia.
  cbn [Nat.add take app] in *.
  rewrite drop_replicate, Nat.sub_diag in HH. cbn [replicate] in HH.
  rewrite app_nil_r in HH.
  exists addrs. repeat split; done.
Qed.

Lemma alloc_loop_fail_after n1 :
  forall i r1 (s : state Tensor) H1 s1,
    alloc_loop undefined_tensor n1 i r1 s = Ok H1 s1 ->
    operator_new (heap s1) = None ->
    forall n2 r2, alloc_loop undefined_tensor (n1 + S n2) i r2 s = Fail BadAlloc s1.
Proof.
  induction n1 as [| n1 IH]; intros i r1 s H1 s1 Hrun Hoom n2 r2.
  - injection Hrun as <- <-. by apply alloc_loop_bad_alloc.
  - destruct (alloc_loop_step_inv _ _ _ _ _ _ Hrun) as (a & v & Ha & Hv).
    rewrite (alloc_loop_step _ _ _ _ a v) in Hrun by done.
    cbn [Nat.add]. rewrite (alloc_loop_step _ _ _ _ a v) by done.
    by eapply IH.
Qed.

(** ** The contract of [tensor_converter.cpp] *)

(** C3. Coercing a tensor pointer to a handle and back returns exactly that
    pointer, and coercing a handle to a pointer and back returns exactly
    that handle: the two coercions are mutually inverse and keep the
    address bits. *)
Theorem coercion_roundtrip (p : TensorPtr) (h : AtenTensorHandle) (s : state Tensor) :
  bind (tensor_pointer_to_tensor_handle p) tensor_handle_to_tensor_pointer s
    = Ok p s /\
  bind (tensor_handle_to_tensor_pointer h) tensor_pointer_to_tensor_handle s
    = Ok h s /\
  handle_bits (reinterpret_as_handle p) = ptr_bits p /\
  ptr_bits (reinterpret_as_pointer h) = handle_bits h.
Proof. destruct p, h. repeat split. Qed.

(** C6. The coercions have no side effects: on every argument (null and
    dangling ones included) and in every state they return normally, with
    the same address bits and the state exactly as it was: nothing is
    allocated, freed, checked or written. *)
Theorem coercions_pure (h : AtenTensorHandle) (p : TensorPtr) (s : state Tensor) :
  tensor_handle_to_tensor_pointer h s = Ok (MkPtr (handle_bits h)) s /\
  tensor_pointer_to_tensor_handle p s = Ok (MkHandle (ptr_bits p)) s.
Proof. split; reflexivity. Qed.

(** C5. For [length = 0] both bulk functions return the empty sequence and
    leave the whole state (arrays, heap of boxed tensors, event log) as it
    was. *)
Theorem bulk_zero_length (s : state Tensor) :
  unsafe_alloc_new_handles_from_tensors undefined_tensor 0 s = Ok [] s /\
  alloc_tensors_by_stealing_from_handles undefined_tensor 0 s = Ok [] s.
Proof. split; reflexivity. Qed.

(** C8. The handles returned by a successful bulk allocation are [N] in
    number, all non-null and pairwise distinct. *)
Theorem alloc_handles_nonnull_distinct N (s : state Tensor) H s' :
  unsafe_alloc_new_handles_from_tensors undefined_tensor N s = Ok H s' ->
  length H = N /\
  Forall (fun h => h <> null_handle) H /\
  NoDup H /\
  (forall i j hi hj, H !! i = Some hi -> H !! j = Some hj -> i <> j -> hi <> hj).
Proof.
  intros Hrun.
  apply alloc_Ok_closed_form in Hrun
    as (addrs & Hlen & _ & -> & _ & _ & _ & Hnd & Hfresh & _ & _).
  assert (Hinj : Inj (=) (=) MkHandle) by (intros a b Hab; by injection Hab).
  assert (HndH : NoDup (MkHandle <$> addrs)) by by apply NoDup_fmap_2.
  split; [by rewrite length_fmap |]. split; [| split; [done |]].
  - apply Forall_fmap. eapply Forall_impl; [exact Hfresh |].
    intros a [Hnz _] Heq. by injection Heq.
  - intros i j hi hj Hi Hj Hij ->. apply Hij.
    by eapply NoDup_lookup.
Qed.

(** C2. Positional correspondence.  A successful bulk allocation returns
    exactly [N] handles, and the handle at position [i] is the address of a
    box that did not exist before the call and now holds the value that
    was in input slot [i], which is left moved-from.  A successful bulk
    reclamation returns exactly [N] values, and the value at position [i]
    is the one moved out of the box behind input handle [i]: the payload
    that box had before the call, or the moved-from tensor when an earlier
    position named the same box. *)
Theorem bulk_positional N :
  (forall (s : state Tensor) H s',
      unsafe_alloc_new_handles_from_tensors undefined_tensor N s = Ok H s' ->
      length H = N /\
      forall i, (i < N)%nat ->
        exists h v,
          H !! i = Some h /\
          tensors_mem s !! i = Some v /\
          heap s !! handle_bits h = None /\
          heap s' !! handle_bits h = Some v /\
          tensors_mem s' !! i = Some undefined_tensor) /\
  (forall (s : state Tensor) R s',
      alloc_tensors_by_stealing_from_handles undefined_tensor N s = Ok R s' ->
      length R = N /\
      forall i, (i < N)%nat ->
        exists h v,
          handles_mem s !! i = Some h /\
          heap s !! handle_bits h = Some v /\
          R !! i = Some (if decide (handle_bits h ∈ handle_bits <$> take i (handles_mem s))
                         then undefined_tensor else v) /\
          heap s' !! handle_bits h = Some undefined_tensor).
Proof.
  split.
  - intros s H s' Hrun.
    apply alloc_Ok_closed_form in Hrun
      as (addrs & Hlen & Hbound & -> & Hts & _ & _ & _ & Hfresh & Hnew & _).
    split; [by rewrite length_fmap |].
    intros i Hi.
    destruct (lookup_lt_is_Some_2 addrs i) as [a Ha]; [lia |].
    destruct (lookup_lt_is_Some_2 (tensors_mem s) i) as [v Hv]; [lia |].
    exists (MkHandle a), v. cbn [handle_bits].
    split; [by rewrite list_lookup_fmap, Ha |]. split; [done |].
    split; [by destruct (Forall_lookup_1 _ _ _ _ Hfresh Ha) |].
    split; [by rewrite (Hnew i a Ha) |].
    rewrite Hts, lookup_app_l by (rewrite length_replicate; lia).
    by apply lookup_replicate_2.
  - intros s R s' Hrun.
    apply steal_Ok_closed_form in Hrun as (Hlen & Hlive & -> & ->).
    split; [by rewrite stolen_length, length_take_le |].
    intros i Hi.
    destruct (lookup_lt_is_Some_2 (handles_mem s) i) as [h Hh]; [lia |].
    assert (Hh' : take N (handles_mem s) !! i = Some h)
      by by rewrite lookup_take_lt.
    destruct (Forall_lookup_1 _ _ _ _ Hlive Hh') as [_ [v Hv]].
    exists h, v. split; [done |]. split; [done |]. split.
    + rewrite (stolen_lookup _ _ _ h) by done.
      rewrite drain_lookup, take_take, Nat.min_l by lia.
      case_decide; [done |]. by rewrite Hv.
    + cbn [heap]. rewrite drain_lookup. case_decide as Hin; [done |].
      exfalso. apply Hin. apply list_elem_of_fmap_2.
      by eapply list_elem_of_lookup_2.
Qed.

(** C1. Allocation/reclamation inverse law.  When bulk allocation on the
    first [N] tensors of the caller's array succeeds with handles [H], and
    the caller passes [H] as the handle array, bulk reclamation succeeds,
    returns exactly those [N] original tensors in order, and leaves every
    slot of the handle array null. *)
Theorem alloc_then_steal_roundtrip N (s : state Tensor) H s1 :
  unsafe_alloc_new_handles_from_tensors undefined_tensor N s = Ok H s1 ->
  exists s2,
    alloc_tensors_by_stealing_from_handles undefined_tensor N (set_handles H s1)
      = Ok (take N (tensors_mem s)) s2 /\
    handles_mem s2 = replicate N null_handle.
Proof.
  intros Hrun.
  apply alloc_Ok_closed_form in Hrun
    as (addrs & Hlen & Hbound & -> & _ & _ & _ & Hnd & Hfresh & Hnew & _).
  set (H := MkHandle <$> addrs).
  assert (HlenH : length H = N) by (unfold H; by rewrite length_fmap).
  assert (Hbits : handle_bits <$> H = addrs).
  { unfold H. rewrite <- list_fmap_compose. apply list_fmap_id. }
  assert (Hbox : forall k h, H !! k = Some h ->
                   heap s1 !! handle_bits h = take N (tensors_mem s) !! k).
  { intros k h Hk. apply lookup_lt_Some in Hk as Hlt.
    unfold H in Hk. rewrite list_lookup_fmap in Hk.
    destruct (addrs !! k) as [a |] eqn:Ha; [| discriminate].
    injection Hk as <-. cbn [handle_bits].
    rewrite (Hnew k a Ha), lookup_take_lt; [done | lia]. }
  pose proof (steal_loop_spec H [] [] [] (set_handles H s1)) as Hspec.
  rewrite HlenH in Hspec.
  cbn [length app handles_mem heap tensors_mem trace set_handles] in Hspec.
  rewrite app_nil_r in Hspec.
  eexists. split.
  - unfold alloc_tensors_by_stealing_from_handles. rewrite Hspec.
    + f_equal. apply stolen_NoDup.
      * by rewrite Hbits.
      * rewrite length_take_le; lia.
      * exact Hbox.
    + done.
    + apply Forall_lookup_2. intros k h Hk. split.
      * assert (Hin : handle_bits h ∈ addrs).
        { rewrite <- Hbits. apply list_elem_of_fmap_2. by eapply list_elem_of_lookup_2. }
        rewrite Forall_forall in Hfresh. by destruct (Hfresh _ Hin).
      * rewrite (Hbox k h Hk). apply lookup_lt_is_Some_2.
        apply lookup_lt_Some in Hk. rewrite length_take_le; lia.
  - cbn [handles_mem app]. by rewrite ?app_nil_r.
Qed.

(** C4. A successful bulk reclamation visits positions [0 .. N-1] in
    increasing order, and at each position reads the handle, moves the
    tensor out of the box the coerced handle points to, and only then
    stores null into that slot; when it returns, each of the first [N]
    handle slots is null. *)
Theorem steal_order_and_nulling N (s : state Tensor) R s' :
  alloc_tensors_by_stealing_from_handles undefined_tensor N s = Ok R s' ->
  trace s' = trace s ++ steal_events 0 (take N (handles_mem s)) /\
  length (take N (handles_mem s)) = N /\
  (forall i, (i < N)%nat -> handles_mem s' !! i = Some null_handle).
Proof.
  intros Hrun.
  apply steal_Ok_closed_form in Hrun as (Hlen & _ & _ & ->).
  cbn [trace handles_mem]. split; [done |]. split; [by apply length_take_le |].
  intros i Hi. rewrite lookup_app_l by (rewrite length_replicate; lia).
  by apply lookup_replicate_2.
Qed.

(** C7. When [operator new] throws while element [i] is being processed
    (the first [i] iterations of the loop went through, producing the
    partial vector [Hi] and the state [si]), the whole call fails with
    [BadAlloc] and returns no handles; the state it propagates is [si]
    itself: nothing is rolled back, and the [i] boxes created so far,
    which did not exist before the call, are still allocated and still
    hold the tensors moved out of slots [0 .. i-1]. *)
Theorem alloc_bad_alloc_leaks N i (s : state Tensor) Hi si :
  (i < N)%nat ->
  alloc_loop undefined_tensor i 0 (replicate N null_handle) s = Ok Hi si ->
  operator_new (heap si) = None ->
  unsafe_alloc_new_handles_from_tensors undefined_tensor N s = Fail BadAlloc si /\
  (forall k, (k < i)%nat ->
     exists h v,
       Hi !! k = Some h /\
       tensors_mem s !! k = Some v /\
       heap s !! handle_bits h = None /\
       heap si !! handle_bits h = Some v /\
       tensors_mem si !! k = Some undefined_tensor) /\
  (forall a, is_Some (heap s !! a) -> is_Some (heap si !! a)).
Proof.
  intros Hlt Hrun Hoom. split.
  - unfold unsafe_alloc_new_handles_from_tensors.
    replace N with (i + S (N - S i))%nat at 1 by lia.
    by eapply alloc_loop_fail_after.
  - apply alloc_loop_inv in Hrun
      as (addrs & Hlen & Hbound & -> & Hts & _ & _ & _ & Hfresh & Hnew & Hold);
      rewrite ?length_replicate; try lia.
    cbn [Nat.add take app] in *. split.
    + intros k Hk.
      destruct (lookup_lt_is_Some_2 addrs k) as [a Ha]; [lia |].
      destruct (lookup_lt_is_Some_2 (tensors_mem s) k) as [v Hv]; [lia |].
      destruct (Forall_lookup_1 _ _ _ _ Hfresh Ha) as [_ Hnone].
      exists (MkHandle a), v. cbn [handle_bits].
      split; [| split; [done | split; [done | split]]].
      * rewrite take_0. cbn [app].
        rewrite lookup_app_l by (rewrite length_fmap; lia).
        by rewrite list_lookup_fmap, Ha.
      * by rewrite (Hnew k a Ha).
      * rewrite Hts, take_0. cbn [app].
        rewrite lookup_app_l by (rewrite length_replicate; lia).
        by apply lookup_replicate_2.
    + intros a Ha. rewrite Hold; [done |].
      intros Hin. rewrite Forall_forall in Hfresh.
      destruct (Hfresh a Hin) as [_ Hnone]. rewrite Hnone in Ha.
      by destruct Ha.
Qed.

(** C9. When each of the first [N] handle slots holds a non-null handle
    behind which a boxed tensor lives, bulk reclamation runs to completion:
    no iteration reaches the null-dereference fault (nor any other). *)
Theorem steal_no_null_deref N (s : state Tensor) :
  (forall i, (i < N)%nat ->
     exists h, handles_mem s !! i = Some h /\
               handle_bits h <> 0 /\
               is_Some (heap s !! handle_bits h)) ->
  (forall s', alloc_tensors_by_stealing_from_handles undefined_tensor N s
                <> Fail NullDeref s') /\
  (exists R s', alloc_tensors_by_stealing_from_handles undefined_tensor N s = Ok R s').
Proof.
  intros Hpre.
  assert (Hlen : (N <= length (handles_mem s))%nat).
  { destruct N as [| N]; [lia |].
    destruct (Hpre N) as (h & Hh & _); [lia |].
    apply lookup_lt_Some in Hh. lia. }
  assert (Hlive : Forall (live (heap s)) (take N (handles_mem s))).
  { apply Forall_lookup_2. intros k h Hk.
    apply lookup_take_Some in Hk as [Hk Hlt].
    destruct (Hpre k Hlt) as (h' & Hh' & Hnz & Hbox).
    rewrite Hk in Hh'. injection Hh' as <-. by split. }
  pose proof (steal_loop_spec (take N (handles_mem s)) []
                (drop N (handles_mem s)) [] s) as Hspec.
  rewrite length_take_le in Hspec by lia. cbn [length app] in Hspec.
  unfold alloc_tensors_by_stealing_from_handles.
  rewrite Hspec; [| by rewrite take_drop | done].
  split; [discriminate | eauto].
Qed.

(** C10. Frame of a successful bulk reclamation: handle slots at index
    [N] and above keep their value and the array keeps its length, the
    tensor array is not touched, no box is created or freed, and every
    box that none of the first [N] handles points to keeps its payload. *)
Theorem steal_frame N (s : state Tensor) R s' :
  alloc_tensors_by_stealing_from_handles undefined_tensor N s = Ok R s' ->
  (N <= length (handles_mem s))%nat /\
  length (handles_mem s') = length (handles_mem s) /\
  (forall j, (N <= j)%nat -> handles_mem s' !! j = handles_mem s !! j) /\
  tensors_mem s' = tensors_mem s /\
  dom (heap s') = dom (heap s) /\
  (forall a, a ∉ handle_bits <$> take N (handles_mem s) ->
             heap s' !! a = heap s !! a).
Proof.
  intros Hrun.
  apply steal_Ok_closed_form in Hrun as (Hlen & Hlive & _ & ->).
  cbn [handles_mem tensors_mem heap]. split; [done |]. split; [| split; [| split; [done | split]]].
  - rewrite length_app, length_replicate, length_drop. lia.
  - intros j Hj. rewrite lookup_app_r; rewrite length_replicate; [| done].
    rewrite lookup_drop. f_equal. lia.
  - by apply drain_dom.
  - intros a Ha. rewrite drain_lookup. by case_decide.
Qed.

End Proofs.

(** * Further properties of the two bulk functions *)

Section Further.

Context {Tensor : Type}.
Variable undefined_tensor : Tensor.
Context {allocator : Allocator Tensor}.

(** *** Allocation: what a successful call leaves alone *)

(** The boxes after a successful allocation loop are the old ones and the
    ones at the addresses [operator new] returned. *)
Lemma fresh_boxes_dom (m m' : gmap Z Tensor) (addrs : list Z) (vs : list Tensor) :
  (length addrs <= length vs)%nat ->
  (forall k a, addrs !! k = Some a -> m' !! a = vs !! k) ->
  (forall a, a ∉ addrs -> m' !! a = m !! a) ->
  dom m' = dom m ∪ list_to_set addrs.
Proof.
  intros Hlen Hnew Hold. apply set_eq. intros a.
  rewrite elem_of_union, !elem_of_dom, elem_of_list_to_set.
  destruct (decide (a ∈ addrs)) as [Hin | Hnin].
  - split; [by right |]. intros _.
    apply list_elem_of_lookup_1 in Hin as [k Hk].
    rewrite (Hnew k a Hk). apply lookup_lt_is_Some_2.
    apply lookup_lt_Some in Hk. lia.
  - rewrite (Hold a Hnin). split; [by left |]. by intros [? | ?].
Qed.

Lemma fresh_boxes_size (m m' : gmap Z Tensor) (addrs : list Z) :
  NoDup addrs ->
  Forall (fun a => a <> 0 /\ m !! a = None) addrs ->
  dom m' = dom m ∪ list_to_set addrs ->
  size m' = (size m + length addrs)%nat.
Proof.
  intros Hnd Hfresh Hdom.
  rewrite <- !size_dom, Hdom, size_union, size_list_to_set by
    (try done; intros a Ha Hin; apply elem_of_list_to_set in Hin;
     rewrite Forall_forall in Hfresh; destruct (Hfresh a Hin) as [_ Hnone];
     apply elem_of_dom in Ha; rewrite Hnone in Ha; by destruct Ha).
  done.
Qed.

(** X1. Frame of a successful bulk allocation: the handle array is not
    touched, the tensor array keeps its length and its slots from [N] on,
    every box that existed before keeps its payload, and the heap has
    exactly [N] more boxes, those the returned handles point to. *)
Theorem alloc_frame N (s : state Tensor) H s' :
  unsafe_alloc_new_handles_from_tensors undefined_tensor N s = Ok H s' ->
  handles_mem s' = handles_mem s /\
  length (tensors_mem s') = length (tensors_mem s) /\
  (forall j, (N <= j)%nat -> tensors_mem s' !! j = tensors_mem s !! j) /\
  (forall a v, heap s !! a = Some v -> heap s' !! a = Some v) /\
  dom (heap s') = dom (heap s) ∪ list_to_set (handle_bits <$> H) /\
  size (heap s') = (size (heap s) + N)%nat.
Proof.
  intros Hrun.
  apply alloc_Ok_closed_form in Hrun
    as (addrs & Hlen & Hbound & -> & Hts & Hhs & _ & Hnd & Hfresh & Hnew & Hold).
  assert (Hbits : handle_bits <$> (MkHandle <$> addrs) = addrs).
  { rewrite <- list_fmap_compose. apply list_fmap_id. }
  assert (Hdom : dom (heap s') = dom (heap s) ∪ list_to_set addrs).
  { apply (fresh_boxes_dom _ _ _ (tensors_mem s)); [lia | done | done]. }
  split; [done |]. split; [| split; [| split; [| split]]].
  - rewrite Hts, length_app, length_replicate, length_drop. lia.
  - intros j Hj. rewrite Hts, lookup_app_r; rewrite length_replicate; [| done].
    rewrite lookup_drop. f_equal. lia.
  - intros a v Ha. rewrite Hold; [done |].
    intros Hin. rewrite Forall_forall in Hfresh.
    destruct (Hfresh a Hin) as [_ Hnone]. congruence.
  - by rewrite Hbits.
  - rewrite <- Hlen. by apply fresh_boxes_size.
Qed.

(** X2. Order of a successful bulk allocation: for positions [0 .. N-1] in
    increasing order it obtains storage and then moves the tensor out of
    that slot, and the handle returned at a position is the address
    [operator new] gave for it. *)
Theorem alloc_order N (s : state Tensor) H s' :
  unsafe_alloc_new_handles_from_tensors undefined_tensor N s = Ok H s' ->
  trace s' = trace s ++ alloc_events 0 (handle_bits <$> H).
Proof.
  intros Hrun.
  apply alloc_Ok_closed_form in Hrun
    as (addrs & _ & _ & -> & _ & _ & Htr & _).
  rewrite <- list_fmap_compose, list_fmap_id. exact Htr.
Qed.

(** *** Allocation: how it can fail *)

Lemma alloc_loop_Ok_or_bad_alloc n :
  forall i result (s : state Tensor),
    (i + n <= length (tensors_mem s))%nat ->
    (exists H s', alloc_loop undefined_tensor n i result s = Ok H s') \/
    (exists s', alloc_loop undefined_tensor n i result s = Fail BadAlloc s').
Proof.
  induction n as [| n IH]; intros i result s Hlen.
  - left. by exists result, s.
  - destruct (operator_new (heap s)) as [a |] eqn:Ha.
    + destruct (lookup_lt_is_Some_2 (tensors_mem s) i) as [v Hv]; [lia |].
      rewrite (alloc_loop_step _ _ _ _ _ a v) by done.
      apply IH. cbn [after_new tensors_mem]. rewrite length_insert. lia.
    + right. exists s. by apply alloc_loop_bad_alloc.
Qed.

(** X3. When the tensor array has at least [N] slots, bulk allocation has
    two possible outcomes only: it returns, or it fails with [BadAlloc]. *)
Theorem alloc_only_bad_alloc N (s : state Tensor) :
  (N <= length (tensors_mem s))%nat ->
  (exists H s', unsafe_alloc_new_handles_from_tensors undefined_tensor N s = Ok H s') \/
  (exists s', unsafe_alloc_new_handles_from_tensors undefined_tensor N s
                = Fail BadAlloc s').
Proof. intros Hlen. by apply alloc_loop_Ok_or_bad_alloc. Qed.

(** A [BadAlloc] failure of the loop comes after a prefix of iterations
    that went through, at a point where [operator new] refuses. *)
Lemma alloc_loop_bad_alloc_inv n :
  forall i result (s : state Tensor) s',
    alloc_loop undefined_tensor n i result s = Fail BadAlloc s' ->
    exists k Hk,
      (k < n)%nat /\
      alloc_loop undefined_tensor k i result s = Ok Hk s' /\
      operator_new (heap s') = None.
Proof.
  induction n as [| n IH]; intros i result s s' Hrun; [discriminate |].
  destruct (operator_new (heap s)) as [a |] eqn:Ha.
  - destruct (tensors_mem s !! i) as [v |] eqn:Hv.
    + rewrite (alloc_loop_step _ _ _ _ _ a v) in Hrun by done.
      apply IH in Hrun as (k & Hk & Hlt & Hpre & Hoom).
      exists (S k), Hk. split; [lia |]. split; [| done].
      by rewrite (alloc_loop_step _ _ _ _ _ a v).
    + cbn [alloc_loop] in Hrun. unfold bind, new_Tensor_move_slot in Hrun.
      rewrite Ha, Hv in Hrun. discriminate.
  - rewrite alloc_loop_bad_alloc in Hrun by done. injection Hrun as <-.
    exists 0%nat, result. split; [lia |]. by split.
Qed.

(** X4. Every [BadAlloc] failure of bulk allocation has this shape: some
    [k < N] leading slots were moved into [k] new boxes, which stay
    allocated; the slot being processed and all later ones still hold
    their tensors; the boxes that existed before and the handle array are
    as they were; and [operator new] refuses in the state left behind. *)
Theorem alloc_bad_alloc_inv N (s : state Tensor) s' :
  unsafe_alloc_new_handles_from_tensors undefined_tensor N s = Fail BadAlloc s' ->
  exists k,
    (k < N)%nat /\
    (k <= length (tensors_mem s))%nat /\
    operator_new (heap s') = None /\
    tensors_mem s' = replicate k undefined_tensor ++ drop k (tensors_mem s) /\
    handles_mem s' = handles_mem s /\
    (forall a v, heap s !! a = Some v -> heap s' !! a = Some v) /\
    size (heap s') = (size (heap s) + k)%nat.
Proof.
  unfold unsafe_alloc_new_handles_from_tensors. intros Hrun.
  apply alloc_loop_bad_alloc_inv in Hrun as (k & Hk & Hlt & Hpre & Hoom).
  apply alloc_loop_inv in Hpre
    as (addrs & Hlen & Hbound & _ & Hts & Hhs & _ & Hnd & Hfresh & Hnew & Hold);
    rewrite ?length_replicate; try lia.
  rewrite take_0 in Hts. cbn [Nat.add app] in *.
  exists k. repeat split; try done.
  - intros a v Ha. rewrite Hold; [done |].
    intros Hin. rewrite Forall_forall in Hfresh.
    destruct (Hfresh a Hin) as [_ Hnone]. congruence.
  - rewrite <- Hlen. apply fresh_boxes_size; [done | done |].
    apply (fresh_boxes_dom _ _ _ (tensors_mem s)); [lia | done | done].
Qed.

(** *** Reclamation: when it is defined and what it returns *)


Lemma NoDup_fmap_take_lookup {A B} (f : A -> B) (l : list A) i x :
  NoDup (f <$> l) -> l !! i = Some x -> f x ∉ f <$> take i l.
Proof.
  intros Hnd Hi Hin.
  apply list_elem_of_fmap_1 in Hin as (y & Hfy & Hy).
  apply list_elem_of_lookup_1 in Hy as [j Hj].
  apply lookup_take_Some in Hj as [Hj Hlt].
  assert (j = i); [| lia].
  eapply NoDup_lookup; [exact Hnd | |]; rewrite list_lookup_fmap.
  - by rewrite Hj.
  - rewrite Hi. cbn. by rewrite Hfy.
Qed.

(** X6. When the first [N] handles point to pairwise distinct boxes, a
    successful bulk reclamation returns, position by position, exactly the
    payload each box held before the call. *)
Theorem steal_exclusive_payloads N (s : state Tensor) R s' :
  NoDup (handle_bits <$> take N (handles_mem s)) ->
  alloc_tensors_by_stealing_from_handles undefined_tensor N s = Ok R s' ->
  length R = N /\
  (forall i h, (i < N)%nat -> handles_mem s !! i = Some h ->
     R !! i = heap s !! handle_bits h).
Proof.
  intros Hnd Hrun.
  apply steal_Ok_closed_form in Hrun as (Hlen & Hlive & -> & _).
  split; [by rewrite stolen_length, length_take_le |].
  intros i h Hi Hh.
  assert (Hh' : take N (handles_mem s) !! i = Some h) by by rewrite lookup_take_lt.
  destruct (Forall_lookup_1 _ _ _ _ Hlive Hh') as [_ [v Hv]].
  rewrite (stolen_lookup _ _ _ _ h) by done.
  rewrite drain_lookup. case_decide as Hin.
  - exfalso. by eapply (NoDup_fmap_take_lookup handle_bits). 
  - by rewrite Hv.
Qed.



Lemma stolen_take (hs : list AtenTensorHandle) :
  forall (m : gmap Z Tensor) n,
    stolen undefined_tensor m (take n hs) = take n (stolen undefined_tensor m hs).
Proof.
  induction hs as [| h hs IH]; intros m n; [by destruct n |].
  destruct n as [| n]; [done |]. cbn [take stolen]. by rewrite IH.
Qed.

(** X8. Reclaiming fewer handles gives a prefix: when reclaiming [N]
    handles succeeds with values [R], reclaiming only the first [n <= N] of
    the same array succeeds with the first [n] values of [R]. *)
Theorem steal_prefix n N (s : state Tensor) R s' :
  (n <= N)%nat ->
  alloc_tensors_by_stealing_from_handles undefined_tensor N s = Ok R s' ->
  exists s1,
    alloc_tensors_by_stealing_from_handles undefined_tensor n s = Ok (take n R) s1.
Proof.
  intros Hn Hrun.
  apply steal_Ok_closed_form in Hrun as (Hlen & Hlive & -> & _).
  pose proof (steal_loop_spec undefined_tensor (take n (handles_mem s)) []
                (drop n (handles_mem s)) [] s) as Hspec.
  rewrite length_take_le in Hspec by lia. cbn [length app] in Hspec.
  unfold alloc_tensors_by_stealing_from_handles.
  rewrite Hspec.
  - eexists. f_equal.
    rewrite <- stolen_take, take_take. by rewrite Nat.min_l by lia.
  - by rewrite take_drop.
  - replace (take n (handles_mem s)) with (take n (take N (handles_mem s)))
      by (rewrite take_take; by rewrite Nat.min_l by lia).
    by apply Forall_take.
Qed.

(** X9. The inverse law does not give the memory back: after a successful
    bulk allocation followed by a successful bulk reclamation of the
    returned handles, each of the [N] boxes is still allocated and holds
    the moved-from tensor, every older box has its payload, and the first
    [N] slots of the tensor array are moved-from. *)
Theorem roundtrip_leaves_boxes N (s : state Tensor) H s1 R s2 :
  unsafe_alloc_new_handles_from_tensors undefined_tensor N s = Ok H s1 ->
  alloc_tensors_by_stealing_from_handles undefined_tensor N (set_handles H s1)
    = Ok R s2 ->
  (forall h, h ∈ H ->
     heap s !! handle_bits h = None /\
     heap s2 !! handle_bits h = Some undefined_tensor) /\
  (forall a v, heap s !! a = Some v -> heap s2 !! a = Some v) /\
  size (heap s2) = (size (heap s) + N)%nat /\
  (forall i, (i < N)%nat -> tensors_mem s2 !! i = Some undefined_tensor).
Proof.
  intros Halloc Hsteal.
  apply alloc_Ok_closed_form in Halloc
    as (addrs & Hlen & Hbound & -> & Hts & _ & _ & Hnd & Hfresh & Hnew & Hold).
  assert (Hbits : handle_bits <$> (MkHandle <$> addrs) = addrs).
  { rewrite <- list_fmap_compose. apply list_fmap_id. }
  apply steal_Ok_closed_form in Hsteal as (_ & Hlive & _ & ->).
  cbn [handles_mem heap tensors_mem set_handles] in *.
  rewrite take_ge in * by (rewrite length_fmap; lia).
  rewrite Forall_forall in Hfresh.
  split; [| split; [| split]].
  - intros h Hh. rewrite drain_lookup.
    apply (list_elem_of_fmap_2 handle_bits) in Hh as Hin.
    split; [| by case_decide].
    rewrite Hbits in Hin. by destruct (Hfresh _ Hin).
  - intros a v Ha. rewrite drain_lookup, Hbits. case_decide as Hin.
    + destruct (Hfresh a Hin) as [_ Hnone]. congruence.
    + by rewrite Hold.
  - rewrite <- size_dom, drain_dom, size_dom by done. rewrite <- Hlen.
    apply fresh_boxes_size; [done | by apply Forall_forall |].
    apply (fresh_boxes_dom _ _ _ (tensors_mem s)); [lia | done | done].
  - intros i Hi. rewrite Hts, lookup_app_l by (rewrite length_replicate; lia).
    by apply lookup_replicate_2.
Qed.

(** *** Allocation: shorter calls *)





End Further.

(** * A concrete machine

    Tensors are stood for by integers and the undefined tensor by [-1].
    The allocator hands out the address after the highest live one and
    throws once [capacity] boxes are live. *)

Lemma next_free_above {V} (h : gmap Z V) k :
  is_Some (h !! k) -> k < next_free h.
Proof.
  unfold next_free.
  cut (k <= map_fold (fun k' _ acc => Z.max k' acc) 0 h \/ h !! k = None).
  { intros [Hle | Hnone] [v Hv]; [lia | congruence]. }
  apply (map_fold_weak_ind
           (fun r (m : gmap Z V) => k <= r \/ m !! k = None)).
  - right. apply lookup_empty.
  - intros j v m r Hj [Hle | Hnone].
    + left. lia.
    + destruct (decide (j = k)) as [-> | Hne].
      * left. lia.
      * right. by rewrite lookup_insert_ne.
Qed.

Lemma next_free_pos {V} (h : gmap Z V) : 0 < next_free h.
Proof.
  unfold next_free.
  cut (0 <= map_fold (fun k' (_ : V) acc => Z.max k' acc) 0 h); [lia |].
  apply (map_fold_weak_ind (fun r (_ : gmap Z V) => 0 <= r)); [lia |].
  intros; lia.
Qed.

Lemma bump_new_nonnull capacity h a : bump_new capacity h = Some a -> a <> 0.
Proof.
  unfold bump_new. case_decide; [| discriminate].
  intros [= <-]. pose proof (next_free_pos h). lia.
Qed.

Lemma bump_new_fresh capacity h a : bump_new capacity h = Some a -> h !! a = None.
Proof.
  unfold bump_new. case_decide; [| discriminate].
  intros [= <-]. destruct (h !! next_free h) eqn:E; [| done].
  assert (next_free h < next_free h) by (apply next_free_above; eauto). lia.
Qed.

Definition bump_allocator (capacity : nat) : Allocator Z :=
  {| operator_new := bump_new capacity;
     operator_new_nonnull := bump_new_nonnull capacity;
     operator_new_fresh := bump_new_fresh capacity |}.

Lemma alloc_then_steal_roundtrip_witness :
  unsafe_alloc_new_handles_from_tensors (allocator := bump_allocator 8) (-1) 3
    demo_start = Ok demo_handles demo_boxed /\
  exists s2,
    alloc_tensors_by_stealing_from_handles (-1) 3 (set_handles demo_handles demo_boxed)
      = Ok (take 3 (tensors_mem demo_start)) s2 /\
    handles_mem s2 = replicate 3 null_handle.
Proof.
  split; [vm_compute; reflexivity |].
  apply (alloc_then_steal_roundtrip (-1) (allocator := bump_allocator 8)
           3 demo_start demo_handles demo_boxed).
  vm_compute; reflexivity.
Defined.

Lemma bulk_positional_witness :
  (unsafe_alloc_new_handles_from_tensors (allocator := bump_allocator 8) (-1) 3
     demo_start = Ok demo_handles demo_boxed /\
   alloc_tensors_by_stealing_from_handles (-1) 3 demo_ready
     = Ok [10; 20; 30] demo_done) /\
  (length demo_handles = 3%nat /\
   forall i, (i < 3)%nat ->
     exists h v,
       demo_handles !! i = Some h /\
       tensors_mem demo_start !! i = Some v /\
       heap demo_start !! handle_bits h = None /\
       heap demo_boxed !! handle_bits h = Some v /\
       tensors_mem demo_boxed !! i = Some (-1)) /\
  (length [10; 20; 30] = 3%nat /\
   forall i, (i < 3)%nat ->
     exists h v,
       handles_mem demo_ready !! i = Some h /\
       heap demo_ready !! handle_bits h = Some v /\
       [10; 20; 30] !! i =
         Some (if decide (handle_bits h ∈ handle_bits <$> take i (handles_mem demo_ready))
               then -1 else v) /\
       heap demo_done !! handle_bits h = Some (-1)).
Proof.
  split; [split; vm_compute; reflexivity |].
  split.
  - apply (proj1 (bulk_positional (-1) (allocator := bump_allocator 8) 3)
             demo_start demo_handles demo_boxed).
    vm_compute; reflexivity.
  - apply (proj2 (bulk_positional (-1) (allocator := bump_allocator 8) 3)
             demo_ready [10; 20; 30] demo_done).
    vm_compute; reflexivity.
Defined.

Lemma steal_order_and_nulling_witness :
  alloc_tensors_by_stealing_from_handles (-1) 3 demo_ready
    = Ok [10; 20; 30] demo_done /\
  trace demo_done
    = trace demo_ready ++ steal_events 0 (take 3 (handles_mem demo_ready)) /\
  length (take 3 (handles_mem demo_ready)) = 3%nat /\
  (forall i, (i < 3)%nat -> handles_mem demo_done !! i = Some null_handle).
Proof.
  split; [vm_compute; reflexivity |].
  apply (steal_order_and_nulling (-1) 3 demo_ready [10; 20; 30] demo_done).
  vm_compute; reflexivity.
Defined.

Lemma alloc_bad_alloc_leaks_witness :
  ((2 < 3)%nat /\
   alloc_loop (allocator := bump_allocator 3) (-1) 2 0 (replicate 3 null_handle)
     demo_start = Ok [MkHandle 8; MkHandle 9; null_handle] demo_partial /\
   operator_new (Allocator := bump_allocator 3) (heap demo_partial) = None) /\
  unsafe_alloc_new_handles_from_tensors (allocator := bump_allocator 3) (-1) 3
    demo_start = Fail BadAlloc demo_partial /\
  (forall k, (k < 2)%nat ->
     exists h v,
       [MkHandle 8; MkHandle 9; null_handle] !! k = Some h /\
       tensors_mem demo_start !! k = Some v /\
       heap demo_start !! handle_bits h = None /\
       heap demo_partial !! handle_bits h = Some v /\
       tensors_mem demo_partial !! k = Some (-1)) /\
  (forall a, is_Some (heap demo_start !! a) -> is_Some (heap demo_partial !! a)).
Proof.
  split; [split; [lia | split; vm_compute; reflexivity] |].
  apply (alloc_bad_alloc_leaks (-1) (allocator := bump_allocator 3)
           3 2 demo_start [MkHandle 8; MkHandle 9; null_handle] demo_partial).
  - lia.
  - vm_compute; reflexivity.
  - vm_compute; reflexivity.
Defined.

Lemma alloc_handles_nonnull_distinct_witness :
  unsafe_alloc_new_handles_from_tensors (allocator := bump_allocator 8) (-1) 3
    demo_start = Ok demo_handles demo_boxed /\
  length demo_handles = 3%nat /\
  Forall (fun h => h <> null_handle) demo_handles /\
  NoDup demo_handles /\
  (forall i j hi hj,
     demo_handles !! i = Some hi -> demo_handles !! j = Some hj ->
     i <> j -> hi <> hj).
Proof.
  split; [vm_compute; reflexivity |].
  apply (alloc_handles_nonnull_distinct (-1) (allocator := bump_allocator 8)
           3 demo_start demo_handles demo_boxed).
  vm_compute; reflexivity.
Defined.

Lemma demo_ready_live :
  forall i, (i < 3)%nat ->
    exists h, handles_mem demo_ready !! i = Some h /\
              handle_bits h <> 0 /\
              is_Some (heap demo_ready !! handle_bits h).
Proof.
  intros i Hi.
  destruct i as [| [| [| i]]]; [| | | lia];
    (eexists; split; [reflexivity |]; split; [simpl; lia |]);
    eexists; vm_compute; reflexivity.
Defined.

Lemma steal_no_null_deref_witness :
  (forall i, (i < 3)%nat ->
     exists h, handles_mem demo_ready !! i = Some h /\
               handle_bits h <> 0 /\
               is_Some (heap demo_ready !! handle_bits h)) /\
  (forall s', alloc_tensors_by_stealing_from_handles (-1) 3 demo_ready
                <> Fail NullDeref s') /\
  (exists R s', alloc_tensors_by_stealing_from_handles (-1) 3 demo_ready = Ok R s').
Proof.
  split; [exact demo_ready_live |].
  apply (steal_no_null_deref (-1) 3 demo_ready).
  exact demo_ready_live.
Defined.

Lemma steal_frame_witness :
  alloc_tensors_by_stealing_from_handles (-1) 3 demo_ready
    = Ok [10; 20; 30] demo_done /\
  (3 <= length (handles_mem demo_ready))%nat /\
  length (handles_mem demo_done) = length (handles_mem demo_ready) /\
  (forall j, (3 <= j)%nat -> handles_mem demo_done !! j = handles_mem demo_ready !! j) /\
  tensors_mem demo_done = tensors_mem demo_ready /\
  dom (heap demo_done) = dom (heap demo_ready) /\
  (forall a, a ∉ handle_bits <$> take 3 (handles_mem demo_ready) ->
             heap demo_done !! a = heap demo_ready !! a).
Proof.
  split; [vm_compute; reflexivity |].
  apply (steal_frame (-1) 3 demo_ready [10; 20; 30] demo_done).
  vm_compute; reflexivity.
Defined.

Lemma alloc_frame_witness :
  unsafe_alloc_new_handles_from_tensors (allocator := bump_allocator 8) (-1) 3
    demo_start = Ok demo_handles demo_boxed /\
  handles_mem demo_boxed = handles_mem demo_start /\
  length (tensors_mem demo_boxed) = length (tensors_mem demo_start) /\
  (forall j, (3 <= j)%nat -> tensors_mem demo_boxed !! j = tensors_mem demo_start !! j) /\
  (forall a v, heap demo_start !! a = Some v -> heap demo_boxed !! a = Some v) /\
  dom (heap demo_boxed)
    = dom (heap demo_start) ∪ list_to_set (handle_bits <$> demo_handles) /\
  size (heap demo_boxed) = (size (heap demo_start) + 3)%nat.
Proof.
  split; [vm_compute; reflexivity |].
  apply (alloc_frame (-1) (allocator := bump_allocator 8)
           3 demo_start demo_handles demo_boxed).
  vm_compute; reflexivity.
Defined.

Lemma alloc_order_witness :
  unsafe_alloc_new_handles_from_tensors (allocator := bump_allocator 8) (-1) 3
    demo_start = Ok demo_handles demo_boxed /\
  trace demo_boxed
    = trace demo_start ++ alloc_events 0 (handle_bits <$> demo_handles).
Proof.
  split; [vm_compute; reflexivity |].
  apply (alloc_order (-1) (allocator := bump_allocator 8)
           3 demo_start demo_handles demo_boxed).
  vm_compute; reflexivity.
Defined.

Lemma alloc_only_bad_alloc_witness :
  (3 <= length (tensors_mem demo_start))%nat /\
  ((exists H s',
      unsafe_alloc_new_handles_from_tensors (allocator := bump_allocator 3) (-1) 3
        demo_start = Ok H s') \/
   (exists s',
      unsafe_alloc_new_handles_from_tensors (allocator := bump_allocator 3) (-1) 3
        demo_start = Fail BadAlloc s')).
Proof.
  split; [simpl; lia |].
  apply (alloc_only_bad_alloc (-1) (allocator := bump_allocator 3) 3 demo_start).
  simpl; lia.
Defined.

Lemma alloc_bad_alloc_inv_witness :
  unsafe_alloc_new_handles_from_tensors (allocator := bump_allocator 3) (-1) 3
    demo_start = Fail BadAlloc demo_partial /\
  exists k,
    (k < 3)%nat /\
    (k <= length (tensors_mem demo_start))%nat /\
    operator_new (Allocator := bump_allocator 3) (heap demo_partial) = None /\
    tensors_mem demo_partial = replicate k (-1) ++ drop k (tensors_mem demo_start) /\
    handles_mem demo_partial = handles_mem demo_start /\
    (forall a v, heap demo_start !! a = Some v -> heap demo_partial !! a = Some v) /\
    size (heap demo_partial) = (size (heap demo_start) + k)%nat.
Proof.
  split; [vm_compute; reflexivity |].
  apply (alloc_bad_alloc_inv (-1) (allocator := bump_allocator 3)
           3 demo_start demo_partial).
  vm_compute; reflexivity.
Defined.

Lemma demo_ready_NoDup :
  NoDup (handle_bits <$> take 3 (handles_mem demo_ready)).
Proof.
  change (NoDup [8; 9; 10]).
  repeat (apply NoDup_cons; split;
          [rewrite ?elem_of_cons, elem_of_nil; intros H; repeat destruct H as [H | H];
           first [discriminate | done] |]).
  apply NoDup_nil. done.
Defined.

Lemma steal_exclusive_payloads_witness :
  (NoDup (handle_bits <$> take 3 (handles_mem demo_ready)) /\
   alloc_tensors_by_stealing_from_handles (-1) 3 demo_ready
     = Ok [10; 20; 30] demo_done) /\
  length [10; 20; 30] = 3%nat /\
  (forall i h, (i < 3)%nat -> handles_mem demo_ready !! i = Some h ->
     [10; 20; 30] !! i = heap demo_ready !! handle_bits h).
Proof.
  split; [split; [exact demo_ready_NoDup | vm_compute; reflexivity] |].
  apply (steal_exclusive_payloads (-1) 3 demo_ready [10; 20; 30] demo_done).
  - exact demo_ready_NoDup.
  - vm_compute; reflexivity.
Defined.


Lemma steal_prefix_witness :
  ((2 <= 3)%nat /\
   alloc_tensors_by_stealing_from_handles (-1) 3 demo_ready
     = Ok [10; 20; 30] demo_done) /\
  exists s1,
    alloc_tensors_by_stealing_from_handles (-1) 2 demo_ready
      = Ok (take 2 [10; 20; 30]) s1.
Proof.
  split; [split; [lia | vm_compute; reflexivity] |].
  apply (steal_prefix (-1) 2 3 demo_ready [10; 20; 30] demo_done).
  - lia.
  - vm_compute; reflexivity.
Defined.

Lemma roundtrip_leaves_boxes_witness :
  (unsafe_alloc_new_handles_from_tensors (allocator := bump_allocator 8) (-1) 3
     demo_start = Ok demo_handles demo_boxed /\
   alloc_tensors_by_stealing_from_handles (-1) 3 (set_handles demo_handles demo_boxed)
     = Ok [10; 20; 30] (set_handles (replicate 3 null_handle) demo_done)) /\
  (forall h, h ∈ demo_handles ->
     heap demo_start !! handle_bits h = None /\
     heap (set_handles (replicate 3 null_handle) demo_done) !! handle_bits h
       = Some (-1)) /\
  (forall a v, heap demo_start !! a = Some v ->
     heap (set_handles (replicate 3 null_handle) demo_done) !! a = Some v) /\
  size (heap (set_handles (replicate 3 null_handle) demo_done))
    = (size (heap demo_start) + 3)%nat /\
  (forall i, (i < 3)%nat ->
     tensors_mem (set_handles (replicate 3 null_handle) demo_done) !! i = Some (-1)).
Proof.
  split; [split; vm_compute; reflexivity |].
  apply (roundtrip_leaves_boxes (-1) (allocator := bump_allocator 8)
           3 demo_start demo_handles demo_boxed [10; 20; 30]
           (set_handles (replicate 3 null_handle) demo_done)).
  - vm_compute; reflexivity.
  - vm_compute; reflexivity.
Defined.


(** Without exclusive ownership the second handle to a box finds it
    already moved-from, and a null slot is a fault: neither is checked by
    the function itself. *)
Example steal_shared_box :
  exists s',
    alloc_tensors_by_stealing_from_handles (-1) 2
      (set_handles [MkHandle 8; MkHandle 8] demo_boxed) = Ok [10; -1] s'.
Proof. eexists. vm_compute. reflexivity. Qed.

Example steal_null_slot :
  exists s',
    alloc_tensors_by_stealing_from_handles (-1) 2
      (set_handles [MkHandle 8; null_handle] demo_boxed) = Fail NullDeref s'.
Proof. eexists. vm_compute. reflexivity. Qed.

Example steal_consumed_twice :
  exists s',
    alloc_tensors_by_stealing_from_handles (-1) 3 demo_done = Fail NullDeref s'.
Proof. eexists. vm_compute. reflexivity. Qed.
